(** * binary-tree.py: the binary-trees allocation benchmark

    A shallow embedding of [python/binary-tree.py] and the properties of its
    tree builder, checksum reducer and driver.

    Python integers are unbounded, so they are [Z].  A [Node] keeps the two
    links the way the class has them, each either [None] or a node, so
    [itemCheck] can fail with the [AttributeError] that Python raises on
    [None.itemCheck()].  The driver prints, so it lives in a small monad
    that threads the lines written to standard output and the exception,
    if any, that stopped the run.  Memory and the interpreter's recursion
    limit are not modelled: runs are those of an interpreter with
    unbounded resources. *)

From Equations Require Import Equations.
From Stdlib Require Import ZArith List String Ascii Lia Bool.
From Stdlib Require Import Numbers.DecimalString.
Import ListNotations.

Local Open Scope Z_scope.

(** ** Exceptions and results *)

Inductive exn : Type :=
| AttributeError
| IndexError
| ValueError.

Inductive result (A : Type) : Type :=
| Ok (a : A)
| Raise (e : exn).

Arguments Ok {A} a.
Arguments Raise {A} e.

Definition rbind {A B : Type} (r : result A) (k : A -> result B) : result B :=
  match r with
  | Ok a => k a
  | Raise e => Raise e
  end.

Declare Scope result_scope.
Delimit Scope result_scope with result.
Notation "x <- r ;; k" := (rbind r (fun x => k))
  (at level 100, r at next level, right associativity) : result_scope.

(** ** class Node *)

#[warnings="-register-all"]
Inductive Node : Type :=
| mkNode (item : Z) (left right : option Node).

(** The attributes [self.item], [self.left] and [self.right]. *)
Definition Node_item (self : Node) : Z :=
  match self with mkNode i _ _ => i end.

Definition Node_left (self : Node) : option Node :=
  match self with mkNode _ l _ => l end.

Definition Node_right (self : Node) : option Node :=
  match self with mkNode _ _ r => r end.

(** [Node.itemCheck]: the test looks at [self.left] only; the return
    statement then evaluates [self.left.itemCheck()] and after it
    [self.right.itemCheck()], which raises when [self.right] is [None]. *)
Fixpoint itemCheck (self : Node) : result Z :=
  match self with
  | mkNode item None _ => Ok item
  | mkNode item (Some l) r =>
      (a <- itemCheck l ;;
       match r with
       | None => Raise AttributeError
       | Some r' => b <- itemCheck r' ;; Ok (item + a - b)
       end)%result
  end.

(** ** bottomUpTree *)

Equations? bottomUpTree (item depth : Z) : Node by wf (Z.to_nat depth) lt :=
  bottomUpTree item depth with Z_le_gt_dec depth 0 := {
    | left _ => mkNode item None None
    | right _ =>
        mkNode item
          (Some (bottomUpTree (2 * item - 1) (depth - 1)))
          (Some (bottomUpTree (2 * item) (depth - 1))) }.
Proof. all: lia. Qed.

(** ** Standard output and the driver's monad *)

(** Standard output is the list of lines written so far, one per call of
    [print]; a computation maps it to the new output and either a value or
    the exception that ended the run. *)
Definition stdout : Type := list string.

Definition Py (A : Type) : Type := stdout -> stdout * result A.

Definition ret {A : Type} (a : A) : Py A := fun out => (out, Ok a).

Definition bind {A B : Type} (m : Py A) (k : A -> Py B) : Py B :=
  fun out =>
    match m out with
    | (out', Ok a) => k a out'
    | (out', Raise e) => (out', Raise e)
    end.

Definition lift {A : Type} (r : result A) : Py A := fun out => (out, r).

Definition print (line : string) : Py unit := fun out => (out ++ [line], Ok tt).

Declare Scope py_scope.
Delimit Scope py_scope with py.
Notation "x <- m ;; k" := (bind m (fun x => k))
  (at level 100, m at next level, right associativity) : py_scope.
Notation "m ;;; k" := (bind m (fun _ => k))
  (at level 100, right associativity) : py_scope.

(** ** Built-ins used by the driver *)

(** ["%d" % z]: decimal digits, with a leading minus sign when negative. *)
Definition fmt_d (z : Z) : string := NilZero.string_of_int (Z.to_int z).

Definition tab : string := String (ascii_of_nat 9) EmptyString.

(** [a << k] raises [ValueError] on a negative shift count. *)
Definition lshift (a k : Z) : result Z :=
  if k <? 0 then Raise ValueError else Ok (Z.shiftl a k).

(** [range(lo, hi)]: [lo], [lo+1], ..., [hi-1]; empty when [hi <= lo]. *)
Definition range (lo hi : Z) : list Z :=
  map (fun k => lo + Z.of_nat k) (seq 0 (Z.to_nat (hi - lo))).

(** [for i in l: body], threading the variables the body assigns. *)
Fixpoint for_in {S : Type} (l : list Z) (body : Z -> S -> Py S) (s : S) : Py S :=
  match l with
  | [] => ret s
  | i :: l' => (s' <- body i s ;; for_in l' body s')%py
  end.

(** [l[i]] on a list, for an index that is not negative. *)
Definition getitem {A : Type} (l : list A) (i : nat) : result A :=
  match nth_error l i with
  | Some a => Ok a
  | None => Raise IndexError
  end.

(** ** main *)

(** The three format strings, applied with [%]. *)
Definition stretch_line (depth check : Z) : string :=
  ("stretch tree of depth " ++ fmt_d depth ++ tab
   ++ " check: " ++ fmt_d check)%string.

Definition trees_line (count depth check : Z) : string :=
  (fmt_d count ++ tab ++ " trees of depth " ++ fmt_d depth ++ tab
   ++ " check: " ++ fmt_d check)%string.

Definition long_lived_line (depth check : Z) : string :=
  ("long lived tree of depth " ++ fmt_d depth ++ tab
   ++ " check: " ++ fmt_d check)%string.

(** The two statements of the [for] loop's body, acting on [check]. *)
Definition for_body (depth i check : Z) : Py Z :=
  (c1 <- lift (itemCheck (bottomUpTree i depth)) ;;
   let check := check + c1 in
   c2 <- lift (itemCheck (bottomUpTree (- i) depth)) ;;
   let check := check + c2 in
   ret check)%py.

(** One pass through the body of the [while] loop, up to [depth += 2]. *)
Definition while_body (maxDepth minDepth depth : Z) : Py unit :=
  (iterations <- lift (lshift 1 (maxDepth - depth + minDepth)) ;;
   let check := 0 in
   check <- for_in (range 1 iterations) (for_body depth) check ;;
   print (trees_line (iterations * 2) depth check))%py.

(** [while depth <= maxDepth: ...; depth += 2]. *)
Equations? while_loop (maxDepth minDepth depth : Z) : Py unit
  by wf (Z.to_nat (maxDepth - depth + 1)) lt :=
  while_loop maxDepth minDepth depth with Z_le_gt_dec depth maxDepth := {
    | left _ =>
        (while_body maxDepth minDepth depth ;;;
         while_loop maxDepth minDepth (depth + 2))%py
    | right _ => ret tt }.
Proof. lia. Qed.

Definition main (n minDepth : Z) : Py unit :=
  let maxDepth := n in
  let maxDepth := if minDepth + 2 >? n then minDepth + 2 else maxDepth in
  let stretchDepth := maxDepth + 1 in
  (check <- lift (itemCheck (bottomUpTree 0 stretchDepth)) ;;
   print (stretch_line stretchDepth check) ;;;
   let longLivedTree := bottomUpTree 0 maxDepth in
   let depth := minDepth in
   while_loop maxDepth minDepth depth ;;;
   check <- lift (itemCheck longLivedTree) ;;
   print (long_lived_line maxDepth check))%py.

(** The default value of [main]'s second parameter. *)
Definition minDepth_default : Z := 4.

(** ** The script: [main(int(sys.argv[1]))] *)

Section Script.

(** [int] applied to a string: the integer it denotes, or [None] where
    the built-in raises [ValueError]. *)
Variable int : string -> option Z.

Definition py_int (s : string) : result Z :=
  match int s with
  | Some n => Ok n
  | None => Raise ValueError
  end.

Definition script (argv : list string) : Py unit :=
  (arg <- lift (getitem argv 1) ;;
   n <- lift (py_int arg) ;;
   main n minDepth_default)%py.

(** A run starts with nothing written. *)
Definition run (argv : list string) : stdout * result unit := script argv [].

(** The two ways the command line can be wrong: no [sys.argv[1]], or one
    that [int] rejects. *)
Definition absent (argv : list string) : Prop := nth_error argv 1 = None.

Definition malformed (argv : list string) : Prop :=
  exists arg, nth_error argv 1 = Some arg /\ int arg = None.

End Script.

(** The interpreter's exit status: 0 when the script runs to its end, 1
    when an exception is left uncaught. *)
Definition exit_status {A : Type} (r : result A) : Z :=
  match r with
  | Ok _ => 0
  | Raise _ => 1
  end.

(** ** Measures and predicates on trees *)

Definition option_all (P : Node -> Prop) (o : option Node) : Prop :=
  match o with
  | Some t => P t
  | None => True
  end.

(** Induction on a node with hypotheses for the links that are present. *)
Section NodeInduction.

Variable P : Node -> Prop.
Hypothesis Hnode :
  forall i l r, option_all P l -> option_all P r -> P (mkNode i l r).

Fixpoint Node_links_ind (t : Node) : P t :=
  match t with
  | mkNode i l r =>
      Hnode i l r
        (match l return option_all P l with
         | Some t' => Node_links_ind t'
         | None => I
         end)
        (match r return option_all P r with
         | Some t' => Node_links_ind t'
         | None => I
         end)
  end.

End NodeInduction.

(** The number of nodes of a tree. *)
Fixpoint size (t : Node) : Z :=
  match t with
  | mkNode _ l r =>
      1 + match l with Some t' => size t' | None => 0 end
        + match r with Some t' => size t' | None => 0 end
  end.

(** [is_node_of t root]: [t] is [root] or is reached from it through links. *)
Inductive is_node_of (t : Node) : Node -> Prop :=
| node_self : is_node_of t t
| node_left i l r : is_node_of t l -> is_node_of t (mkNode i (Some l) r)
| node_right i l r : is_node_of t r -> is_node_of t (mkNode i l (Some r)).

(** A node is a leaf (both links absent) or has both links. *)
Definition leaf_or_full (t : Node) : Prop :=
  (Node_left t = None /\ Node_right t = None)
  \/ (exists l r, Node_left t = Some l /\ Node_right t = Some r).

(** ** What the driver writes, in closed form *)

(** The line of the [while] loop for [depth]: the count printed is twice
    [iterations]; the sum is that of the seeds that [range(1, iterations)]
    yields, a pair for each. *)
Definition loop_line (maxDepth minDepth depth : Z) : string :=
  let iterations := 2 ^ (maxDepth - depth + minDepth) in
  trees_line (iterations * 2) depth (-2 * (iterations - 1)).

Fixpoint loop_lines_from (k : nat) (maxDepth minDepth depth : Z) : list string :=
  match k with
  | O => []
  | S k' =>
      loop_line maxDepth minDepth depth
      :: loop_lines_from k' maxDepth minDepth (depth + 2)
  end.

(** The passes of the loop that starts at [depth]: one for each of
    [depth], [depth+2], ... up to [maxDepth]. *)
Definition passes (maxDepth depth : Z) : nat :=
  Z.to_nat ((maxDepth - depth + 2) / 2).

Definition loop_lines (maxDepth minDepth : Z) : list string :=
  loop_lines_from (passes maxDepth minDepth) maxDepth minDepth minDepth.

(** The trees that the [for] loop builds, in the order it builds them. *)
Definition short_lived_trees (depth iterations : Z) : list Node :=
  flat_map (fun i => [bottomUpTree i depth; bottomUpTree (- i) depth])
    (range 1 iterations).

(** ** An instance of [int] for the examples *)

(** Plain decimal literals: an optional sign, then ASCII digits.  The
    built-in accepts these with these values (and accepts more: blanks
    around the literal, underscores between digits). *)
Definition digit_of (c : ascii) : option Z :=
  let n := Z.of_nat (nat_of_ascii c) in
  if (48 <=? n) && (n <=? 57) then Some (n - 48) else None.

Fixpoint digits_value (acc : Z) (s : string) : option Z :=
  match s with
  | EmptyString => Some acc
  | String c s' =>
      match digit_of c with
      | Some d => digits_value (10 * acc + d) s'
      | None => None
      end
  end.

Definition int_decimal (s : string) : option Z :=
  match s with
  | EmptyString => None
  | String "-" (String c s') => option_map Z.opp (digits_value 0 (String c s'))
  | String "+" (String c s') => digits_value 0 (String c s')
  | String _ _ => digits_value 0 s
  end.

(** ** Shapes of trees and the driver for any [minDepth] *)

(** A perfect tree of height [k]: every node has no link or both, and every
    leaf is [k] links below the root. *)
Inductive perfect : nat -> Node -> Prop :=
| perfect_leaf i : perfect O (mkNode i None None)
| perfect_node k i l r :
    perfect k l -> perfect k r -> perfect (S k) (mkNode i (Some l) (Some r)).

(** The number of nodes without links. *)
Fixpoint leaves (t : Node) : Z :=
  match t with
  | mkNode _ None None => 1
  | mkNode _ l r =>
      match l with Some t' => leaves t' | None => 0 end
      + match r with Some t' => leaves t' | None => 0 end
  end.

(** [reached t root]: [itemCheck], called on [root], can come to call
    itself on [t].  It goes down a left link whenever there is one, and
    down a right link only at a node that has a left one. *)
Inductive reached (t : Node) : Node -> Prop :=
| reached_self : reached t t
| reached_left i l r : reached t l -> reached t (mkNode i (Some l) r)
| reached_right i l r : reached t r -> reached t (mkNode i (Some l) (Some r)).

(** The sum of a pass of the [while] loop at [depth]. *)
Definition pass_check (depth iterations : Z) : Z :=
  if depth <=? 0 then 0 else -2 * (iterations - 1).

Definition pass_line (maxDepth minDepth depth : Z) : string :=
  let iterations := 2 ^ (maxDepth - depth + minDepth) in
  trees_line (iterations * 2) depth (pass_check depth iterations).

(** The lines of [k] passes from [depth] on, up to the first pass whose
    shift count is negative. *)
Fixpoint loop_output (k : nat) (maxDepth minDepth depth : Z) : list string :=
  match k with
  | O => []
  | S k' =>
      if maxDepth - depth + minDepth <? 0 then []
      else pass_line maxDepth minDepth depth
           :: loop_output k' maxDepth minDepth (depth + 2)
  end.

(** Whether the loop started at [depth] meets a negative shift count: it
    does when its last pass is at a depth above [maxDepth + minDepth]. *)
Definition loop_raises (maxDepth minDepth depth : Z) : bool :=
  (depth <=? maxDepth)
  && (maxDepth + minDepth <? depth + 2 * ((maxDepth - depth) / 2)).

(** The check of a tree seeded with 0. *)
Definition root_check (depth : Z) : Z := if depth <=? 0 then 0 else -1.

(** The depths of the loop's passes, in order. *)
Definition loop_depths (maxDepth minDepth : Z) : list Z :=
  map (fun j => minDepth + 2 * Z.of_nat j) (seq 0 (passes maxDepth minDepth)).

(** ** The tree builder *)

Lemma bottomUpTree_leaf (item depth : Z) :
  depth <= 0 -> bottomUpTree item depth = mkNode item None None.
Proof.
  intros Hd. rewrite (bottomUpTree_equation_1 item depth).
  destruct (Z_le_gt_dec depth 0) as [Hle | Hgt]; [reflexivity | lia].
Qed.

Lemma bottomUpTree_node (item depth : Z) :
  0 < depth ->
  bottomUpTree item depth =
    mkNode item
      (Some (bottomUpTree (2 * item - 1) (depth - 1)))
      (Some (bottomUpTree (2 * item) (depth - 1))).
Proof.
  intros Hd. rewrite (bottomUpTree_equation_1 item depth).
  destruct (Z_le_gt_dec depth 0) as [Hle | Hgt]; [lia | reflexivity].
Qed.

(** Induction along the recursion of [bottomUpTree]. *)
Lemma bottomUpTree_depth_ind (P : Z -> Z -> Prop) :
  (forall item depth, depth <= 0 -> P item depth) ->
  (forall item depth,
      0 < depth ->
      P (2 * item - 1) (depth - 1) ->
      P (2 * item) (depth - 1) ->
      P item depth) ->
  forall item depth, P item depth.
Proof.
  intros Hleaf Hnode item depth.
  remember (Z.to_nat depth) as k eqn:Hk.
  revert item depth Hk.
  induction k as [| k IH]; intros item depth Hk.
  - apply Hleaf. lia.
  - apply Hnode; [lia | apply IH; lia | apply IH; lia].
Qed.

(** C6. [bottomUpTree item depth] is a leaf holding [item] when
    [depth <= 0]; otherwise it is a node holding [item] whose left subtree
    is [bottomUpTree (2*item-1) (depth-1)] and whose right subtree is
    [bottomUpTree (2*item) (depth-1)].  It is a function of its two
    arguments: equal arguments give equal trees. *)
Theorem bottomUpTree_spec (item depth : Z) :
  bottomUpTree item depth =
    (if depth <=? 0
     then mkNode item None None
     else mkNode item
            (Some (bottomUpTree (2 * item - 1) (depth - 1)))
            (Some (bottomUpTree (2 * item) (depth - 1))))
  /\ (forall item' depth',
         item' = item -> depth' = depth ->
         bottomUpTree item' depth' = bottomUpTree item depth).
Proof.
  split.
  - destruct (Z.leb_spec depth 0) as [Hle | Hgt].
    + apply bottomUpTree_leaf; assumption.
    + apply bottomUpTree_node; assumption.
  - intros item' depth' -> ->. reflexivity.
Qed.

Lemma bottomUpTree_spec_witness :
  bottomUpTree 3 2
  = mkNode 3 (Some (bottomUpTree 5 1)) (Some (bottomUpTree 6 1))
  /\ bottomUpTree (1 + 2) (4 - 2) = bottomUpTree 3 2.
Proof.
  split.
  - exact (proj1 (bottomUpTree_spec 3 2)).
  - apply (proj2 (bottomUpTree_spec 3 2)); reflexivity.
Defined.

(** Every node of a built tree is itself a built tree. *)
Lemma node_of_bottomUpTree (t : Node) (item depth : Z) :
  is_node_of t (bottomUpTree item depth) ->
  exists item' depth', t = bottomUpTree item' depth'.
Proof.
  revert t. pattern item, depth. apply bottomUpTree_depth_ind; clear item depth.
  - intros item depth Hd t Ht.
    rewrite (bottomUpTree_leaf item depth Hd) in Ht.
    inversion Ht; subst.
    exists item, depth. symmetry. apply bottomUpTree_leaf; assumption.
  - intros item depth Hd IHl IHr t Ht.
    rewrite (bottomUpTree_node item depth Hd) in Ht.
    inversion Ht; subst.
    + exists item, depth. symmetry. apply bottomUpTree_node; assumption.
    + apply IHl; assumption.
    + apply IHr; assumption.
Qed.

Lemma bottomUpTree_leaf_or_full (item depth : Z) :
  leaf_or_full (bottomUpTree item depth).
Proof.
  destruct (Z_le_gt_dec depth 0) as [Hle | Hgt].
  - rewrite bottomUpTree_leaf by assumption. left. split; reflexivity.
  - rewrite bottomUpTree_node by lia. right. eexists. eexists.
    split; reflexivity.
Qed.

(** C4. For every item and every depth [d >= 0], the tree built by
    [bottomUpTree item d] has exactly [2^(d+1) - 1] nodes. *)
Theorem size_bottomUpTree (item d : Z) :
  0 <= d -> size (bottomUpTree item d) = 2 ^ (d + 1) - 1.
Proof.
  pattern item, d. apply bottomUpTree_depth_ind; clear item d.
  - intros item depth Hle Hge.
    assert (depth = 0) as -> by lia.
    rewrite bottomUpTree_leaf by lia. reflexivity.
  - intros item depth Hd IHl IHr _.
    rewrite (bottomUpTree_node item depth Hd).
    cbn [size].
    replace (depth - 1 + 1) with depth in IHl, IHr by lia.
    rewrite IHl, IHr by lia.
    rewrite Z.pow_add_r by lia. lia.
Qed.

Lemma size_bottomUpTree_witness : 0 <= 3 /\ size (bottomUpTree 7 3) = 15.
Proof. split; [lia | apply (size_bottomUpTree 7 3); lia]. Defined.

(** ** The checksum *)

Lemma itemCheck_leaf (item : Z) (r : option Node) :
  itemCheck (mkNode item None r) = Ok item.
Proof. reflexivity. Qed.

Lemma itemCheck_full (item a b : Z) (l r : Node) :
  itemCheck l = Ok a ->
  itemCheck r = Ok b ->
  itemCheck (mkNode item (Some l) (Some r)) = Ok (item + a - b).
Proof. intros Hl Hr. cbn [itemCheck]. rewrite Hl. cbn [rbind]. rewrite Hr. reflexivity. Qed.

(** A left link without a right one is where the check raises. *)
Lemma itemCheck_left_only (item a : Z) (l : Node) :
  itemCheck l = Ok a ->
  itemCheck (mkNode item (Some l) None) = Raise AttributeError.
Proof. intros Hl. cbn [itemCheck]. rewrite Hl. reflexivity. Qed.

(** The check of a built tree in closed form: the subtrees of a node cancel
    up to 1, whatever the depth. *)
Lemma itemCheck_bottomUpTree (item depth : Z) :
  itemCheck (bottomUpTree item depth) =
    Ok (if depth <=? 0 then item else item - 1).
Proof.
  pattern item, depth. apply bottomUpTree_depth_ind; clear item depth.
  - intros item depth Hd.
    rewrite bottomUpTree_leaf by assumption.
    destruct (Z.leb_spec depth 0); [reflexivity | lia].
  - intros item depth Hd IHl IHr.
    rewrite (bottomUpTree_node item depth Hd).
    rewrite (itemCheck_full item _ _ _ _ IHl IHr).
    f_equal.
    destruct (Z.leb_spec depth 0); [lia |].
    destruct (Z.leb_spec (depth - 1) 0); lia.
Qed.

(** Where every node is a leaf or has both links, the check returns. *)
Lemma itemCheck_returns (t : Node) :
  (forall t', is_node_of t' t -> leaf_or_full t') ->
  exists c, itemCheck t = Ok c.
Proof.
  induction t as [i l r IHl IHr] using Node_links_ind.
  intros Hall.
  destruct (Hall _ (node_self _)) as [[Hl Hr] | [l' [r' [Hl Hr]]]];
    cbn [Node_left Node_right] in Hl, Hr; subst.
  - exists i. reflexivity.
  - cbn [option_all] in IHl, IHr.
    destruct IHl as [a Ha].
    { intros t' Ht'. apply Hall. apply node_left. assumption. }
    destruct IHr as [b Hb].
    { intros t' Ht'. apply Hall. apply node_right. assumption. }
    exists (i + a - b). apply itemCheck_full; assumption.
Qed.

(** C7. On every node of a built tree, [itemCheck] returns the node's item
    when the node is a leaf, and the item plus the check of the left
    subtree minus the check of the right subtree when it has children. *)
Theorem itemCheck_spec (item depth : Z) (t : Node) :
  is_node_of t (bottomUpTree item depth) ->
  match Node_left t, Node_right t with
  | None, None => itemCheck t = Ok (Node_item t)
  | Some l, Some r =>
      exists a b,
        itemCheck l = Ok a /\ itemCheck r = Ok b
        /\ itemCheck t = Ok (Node_item t + a - b)
  | _, _ => False
  end.
Proof.
  intros Ht.
  destruct (node_of_bottomUpTree t item depth Ht) as [i [d ->]].
  destruct (Z_le_gt_dec d 0) as [Hle | Hgt].
  - rewrite bottomUpTree_leaf by assumption. reflexivity.
  - rewrite bottomUpTree_node by lia. cbn [Node_left Node_right Node_item].
    eexists. eexists.
    split; [apply itemCheck_bottomUpTree |].
    split; [apply itemCheck_bottomUpTree |].
    apply itemCheck_full; apply itemCheck_bottomUpTree.
Qed.

Lemma itemCheck_spec_witness :
  exists a b,
    itemCheck (bottomUpTree 5 1) = Ok a /\ itemCheck (bottomUpTree 6 1) = Ok b
    /\ itemCheck (bottomUpTree 3 2) = Ok (3 + a - b).
Proof.
  apply (itemCheck_spec 3 2 (bottomUpTree 3 2)). apply node_self.
Defined.

(** C9. Every node of a built tree has both links absent or both present,
    so [itemCheck], which tests the left link only, returns a value on each
    of them and never reaches an absent link. *)
Theorem bottomUpTree_links (item d : Z) (t : Node) :
  is_node_of t (bottomUpTree item d) ->
  leaf_or_full t
  /\ (exists c, itemCheck t = Ok c)
  /\ itemCheck t <> Raise AttributeError.
Proof.
  intros Ht.
  destruct (node_of_bottomUpTree t item d Ht) as [i [d' ->]].
  assert (Hret : exists c, itemCheck (bottomUpTree i d') = Ok c).
  { apply itemCheck_returns. intros t' Ht'.
    destruct (node_of_bottomUpTree t' i d' Ht') as [i' [d'' ->]].
    apply bottomUpTree_leaf_or_full. }
  split; [apply bottomUpTree_leaf_or_full |].
  split; [exact Hret |].
  destruct Hret as [c Hc]. rewrite Hc. discriminate.
Qed.

Lemma bottomUpTree_links_witness :
  leaf_or_full (bottomUpTree 1 1)
  /\ (exists c, itemCheck (bottomUpTree 1 1) = Ok c)
  /\ itemCheck (bottomUpTree 1 1) <> Raise AttributeError.
Proof.
  apply (bottomUpTree_links 1 2 (bottomUpTree 1 1)).
  rewrite (bottomUpTree_node 1 2) by lia.
  exact (node_left _ 1 (bottomUpTree 1 1) _ (node_self _)).
Defined.

(** C3, as the code has it.  For every [i] and every even depth [d], the
    checks of the trees seeded with [i] and [-i] add up to 0 when
    [d <= 0] and to -2 when [d > 0]. *)
Theorem check_pair (i d : Z) :
  Z.even d = true ->
  exists a b,
    itemCheck (bottomUpTree i d) = Ok a
    /\ itemCheck (bottomUpTree (- i) d) = Ok b
    /\ a + b = (if d <=? 0 then 0 else -2).
Proof.
  intros _. eexists. eexists.
  split; [apply itemCheck_bottomUpTree |].
  split; [apply itemCheck_bottomUpTree |].
  destruct (d <=? 0); lia.
Qed.

Lemma check_pair_witness :
  exists a b,
    itemCheck (bottomUpTree 3 2) = Ok a
    /\ itemCheck (bottomUpTree (- 3) 2) = Ok b
    /\ a + b = -2.
Proof. apply (check_pair 3 2). reflexivity. Defined.

(** C3, as the spec has it, fails at [i = 1], [d = 2]: the two checks are
    0 and -2. *)
Lemma check_pair_not_zero :
  itemCheck (bottomUpTree 1 2) = Ok 0
  /\ itemCheck (bottomUpTree (- 1) 2) = Ok (-2)
  /\ ~ (forall i d : Z,
           Z.even d = true ->
           exists a b,
             itemCheck (bottomUpTree i d) = Ok a
             /\ itemCheck (bottomUpTree (- i) d) = Ok b
             /\ a + b = 0).
Proof.
  split; [vm_compute; reflexivity |].
  split; [vm_compute; reflexivity |].
  intros H. destruct (H 1 2 eq_refl) as [a [b [Ha [Hb Hab]]]].
  vm_compute in Ha, Hb. injection Ha as <-. injection Hb as <-. discriminate.
Qed.

(** ** The driver *)

Lemma length_range (lo hi : Z) : List.length (range lo hi) = Z.to_nat (hi - lo).
Proof. unfold range. rewrite length_map, length_seq. reflexivity. Qed.

Lemma in_range (lo hi i : Z) : In i (range lo hi) <-> lo <= i < hi.
Proof.
  unfold range. rewrite in_map_iff. split.
  - intros [k [<- Hk]]. apply in_seq in Hk. lia.
  - intros Hi. exists (Z.to_nat (i - lo)). split; [lia |].
    apply in_seq. lia.
Qed.


(** At a depth of 1 or more the two trees of a pass take 2 off [check]. *)
Lemma for_body_deep (depth i check : Z) (out : stdout) :
  1 <= depth ->
  for_body depth i check out = (out, Ok (check - 2)).
Proof.
  intros Hd. unfold for_body, bind, lift, ret.
  rewrite !itemCheck_bottomUpTree.
  destruct (Z.leb_spec depth 0); [lia |].
  do 2 f_equal. lia.
Qed.

Lemma for_in_for_body_deep (depth : Z) (l : list Z) (check : Z) (out : stdout) :
  1 <= depth ->
  for_in l (for_body depth) check out
  = (out, Ok (check - 2 * Z.of_nat (List.length l))).
Proof.
  intros Hd. revert check.
  induction l as [| i l IH]; intros check.
  - cbn [for_in List.length]. unfold ret. do 2 f_equal. lia.
  - cbn [for_in]. unfold bind at 1.
    rewrite for_body_deep by assumption.
    rewrite IH. do 2 f_equal. cbn [List.length]. lia.
Qed.

Lemma lshift_1 (k : Z) : 0 <= k -> lshift 1 k = Ok (2 ^ k).
Proof.
  intros Hk. unfold lshift.
  destruct (Z.ltb_spec k 0); [lia |].
  rewrite Z.shiftl_1_l. reflexivity.
Qed.

Lemma while_body_deep (maxDepth minDepth depth : Z) (out : stdout) :
  1 <= depth ->
  0 <= maxDepth - depth + minDepth ->
  while_body maxDepth minDepth depth out
  = (out ++ [loop_line maxDepth minDepth depth], Ok tt).
Proof.
  intros Hd Hk. unfold while_body, loop_line.
  unfold bind at 1. unfold lift at 1.
  rewrite lshift_1 by assumption.
  unfold bind at 1.
  rewrite for_in_for_body_deep by assumption.
  rewrite length_range.
  assert (Hpos : 0 < 2 ^ (maxDepth - depth + minDepth))
    by (apply Z.pow_pos_nonneg; lia).
  unfold print. do 4 f_equal. lia.
Qed.

Lemma passes_done (maxDepth depth : Z) :
  depth > maxDepth -> passes maxDepth depth = O.
Proof.
  intros Hd. unfold passes.
  assert ((maxDepth - depth + 2) / 2 < 1) by (apply Z.div_lt_upper_bound; lia).
  lia.
Qed.

Lemma passes_step (maxDepth depth : Z) :
  depth <= maxDepth ->
  passes maxDepth depth = S (passes maxDepth (depth + 2)).
Proof.
  intros Hd. unfold passes.
  replace (maxDepth - depth + 2) with ((maxDepth - (depth + 2) + 2) + 1 * 2) by lia.
  rewrite Z.div_add by lia.
  assert (0 <= (maxDepth - (depth + 2) + 2) / 2) by (apply Z.div_pos; lia).
  lia.
Qed.

Lemma while_loop_exit (maxDepth minDepth depth : Z) :
  depth > maxDepth -> while_loop maxDepth minDepth depth = ret tt.
Proof.
  intros Hd. rewrite (while_loop_equation_1 maxDepth minDepth depth).
  destruct (Z_le_gt_dec depth maxDepth) as [Hle | Hgt]; [lia | reflexivity].
Qed.

Lemma while_loop_pass (maxDepth minDepth depth : Z) :
  depth <= maxDepth ->
  while_loop maxDepth minDepth depth
  = bind (while_body maxDepth minDepth depth)
      (fun _ => while_loop maxDepth minDepth (depth + 2)).
Proof.
  intros Hd. rewrite (while_loop_equation_1 maxDepth minDepth depth).
  destruct (Z_le_gt_dec depth maxDepth) as [Hle | Hgt]; [reflexivity | lia].
Qed.

(** The loop ends, having written one line for each pass. *)
Lemma while_loop_run (maxDepth minDepth : Z) :
  1 <= minDepth ->
  forall (k : nat) (depth : Z) (out : stdout),
    minDepth <= depth ->
    passes maxDepth depth = k ->
    while_loop maxDepth minDepth depth out
    = (out ++ loop_lines_from k maxDepth minDepth depth, Ok tt).
Proof.
  intros Hm. induction k as [| k IH]; intros depth out Hd Hk.
  - destruct (Z_le_gt_dec depth maxDepth) as [Hle | Hgt].
    + rewrite passes_step in Hk by assumption. discriminate.
    + rewrite while_loop_exit by assumption.
      cbn [loop_lines_from]. rewrite app_nil_r. reflexivity.
  - destruct (Z_le_gt_dec depth maxDepth) as [Hle | Hgt].
    + rewrite passes_step in Hk by assumption. injection Hk as Hk.
      rewrite while_loop_pass by assumption. unfold bind.
      rewrite while_body_deep by lia.
      rewrite (IH (depth + 2)) by (assumption || lia).
      cbn [loop_lines_from]. rewrite <- app_assoc. reflexivity.
    + rewrite passes_done in Hk by assumption. discriminate.
Qed.

(** [main] in closed form, for a [minDepth] of 1 or more: it runs to its
    end and writes the stretch line, the loop's lines and the long-lived
    line. *)
Lemma main_run (n minDepth : Z) (out : stdout) :
  1 <= minDepth ->
  let maxDepth := Z.max n (minDepth + 2) in
  main n minDepth out
  = (out ++ stretch_line (maxDepth + 1) (-1)
         :: loop_lines maxDepth minDepth
         ++ [long_lived_line maxDepth (-1)],
     Ok tt).
Proof.
  intros Hm maxDepth. unfold main.
  replace (if minDepth + 2 >? n then minDepth + 2 else n) with maxDepth.
  2:{ unfold maxDepth. rewrite Z.gtb_ltb.
      destruct (Z.ltb_spec n (minDepth + 2)); lia. }
  assert (HM : minDepth + 2 <= maxDepth) by (unfold maxDepth; lia).
  unfold bind, lift, print.
  rewrite !itemCheck_bottomUpTree.
  destruct (Z.leb_spec (maxDepth + 1) 0); [lia |].
  destruct (Z.leb_spec maxDepth 0); [lia |].
  rewrite (while_loop_run maxDepth minDepth Hm (passes maxDepth minDepth))
    by (reflexivity || lia).
  cbn [Z.sub Z.opp Z.add Z.pos_sub].
  unfold loop_lines. rewrite <- !app_assoc. reflexivity.
Qed.

(** C8. For every [n] the driver runs with [minDepth = 4], takes
    [maxDepth = max(n, minDepth+2)] and [stretchDepth = maxDepth+1], writes
    as its first line the check of the tree built at [stretchDepth], and as
    its last line the check of the tree built at [maxDepth]. *)
Theorem main_first_last (n : Z) :
  minDepth_default = 4
  /\ let maxDepth := Z.max n (minDepth_default + 2) in
     let stretchDepth := maxDepth + 1 in
     exists cs cl mids,
       itemCheck (bottomUpTree 0 stretchDepth) = Ok cs
       /\ itemCheck (bottomUpTree 0 maxDepth) = Ok cl
       /\ main n minDepth_default []
          = (stretch_line stretchDepth cs
               :: mids ++ [long_lived_line maxDepth cl],
             Ok tt).
Proof.
  split; [reflexivity |].
  intros maxDepth stretchDepth.
  exists (-1), (-1), (loop_lines maxDepth minDepth_default).
  assert (6 <= maxDepth) by (unfold maxDepth, minDepth_default; lia).
  split; [| split].
  - rewrite itemCheck_bottomUpTree.
    destruct (Z.leb_spec stretchDepth 0); [unfold stretchDepth in *; lia | reflexivity].
  - rewrite itemCheck_bottomUpTree.
    destruct (Z.leb_spec maxDepth 0); [lia | reflexivity].
  - rewrite main_run by (unfold minDepth_default; lia). reflexivity.
Qed.

(** C5. For every item and every depth [d >= 1] the check of
    [bottomUpTree item d] is [item - 1], whatever [d] is.  So the stretch
    tree and the long-lived tree, both seeded with 0, have check -1, and
    the two trees that a pass of the inner loop seeds with [i] and [-i]
    take exactly 2 off the sum. *)
Theorem itemCheck_deep (item d : Z) :
  1 <= d ->
  itemCheck (bottomUpTree item d) = Ok (item - 1)
  /\ (forall n : Z,
         let maxDepth := Z.max n (minDepth_default + 2) in
         itemCheck (bottomUpTree 0 (maxDepth + 1)) = Ok (-1)
         /\ itemCheck (bottomUpTree 0 maxDepth) = Ok (-1)
         /\ exists mids,
              main n minDepth_default []
              = (stretch_line (maxDepth + 1) (-1)
                   :: mids ++ [long_lived_line maxDepth (-1)],
                 Ok tt))
  /\ (forall (i check : Z) (out : stdout),
         for_body d i check out = (out, Ok (check - 2))).
Proof.
  intros Hd. split; [| split].
  - rewrite itemCheck_bottomUpTree.
    destruct (Z.leb_spec d 0); [lia | reflexivity].
  - intros n maxDepth.
    assert (6 <= maxDepth) by (unfold maxDepth, minDepth_default; lia).
    split; [| split].
    + rewrite itemCheck_bottomUpTree.
      destruct (Z.leb_spec (maxDepth + 1) 0); [lia | reflexivity].
    + rewrite itemCheck_bottomUpTree.
      destruct (Z.leb_spec maxDepth 0); [lia | reflexivity].
    + exists (loop_lines maxDepth minDepth_default).
      rewrite main_run by (unfold minDepth_default; lia). reflexivity.
  - intros i check out. apply for_body_deep. assumption.
Qed.

Lemma itemCheck_deep_witness :
  1 <= 4 /\ itemCheck (bottomUpTree 9 4) = Ok 8.
Proof. split; [lia | apply (itemCheck_deep 9 4); lia]. Defined.


(** C1, on the code.  With [n = 4] the pass for depth 4 has
    [iterations = 64]: the line written reports 128 trees, but the loop
    runs over the seeds 1..63 and builds 126 trees, leaving out 64 and -64;
    the pass for depth 6 reports 32 trees and builds 30. *)
Theorem main_4_trees :
  main 4 minDepth_default []
  = ([stretch_line 7 (-1); trees_line 128 4 (-126); trees_line 32 6 (-30);
      long_lived_line 6 (-1)], Ok tt)
  /\ lshift 1 (6 - 4 + 4) = Ok 64
  /\ List.length (short_lived_trees 4 64) = 126%nat
  /\ ~ In 64 (range 1 64)
  /\ lshift 1 (6 - 6 + 4) = Ok 16
  /\ List.length (short_lived_trees 6 16) = 30%nat
  /\ ~ In 16 (range 1 16).
Proof.
  repeat split; try (vm_compute; reflexivity);
    rewrite in_range; lia.
Qed.

(** ** The script *)

Lemma run_cases (int : string -> option Z) (argv : list string) :
  match nth_error argv 1 with
  | None => run int argv = ([], Raise IndexError)
  | Some arg =>
      match int arg with
      | None => run int argv = ([], Raise ValueError)
      | Some n => run int argv = main n minDepth_default []
      end
  end.
Proof.
  unfold run, script, bind, lift, getitem, py_int.
  destruct (nth_error argv 1) as [arg |]; [| reflexivity].
  destruct (int arg) as [n |]; reflexivity.
Qed.

Lemma main_default_returns (n : Z) :
  exists out, main n minDepth_default [] = (out, Ok tt).
Proof.
  eexists. rewrite main_run by (unfold minDepth_default; lia). reflexivity.
Qed.

Lemma run_absent (int : string -> option Z) (argv : list string) :
  nth_error argv 1 = None -> run int argv = ([], Raise IndexError).
Proof. intros H. pose proof (run_cases int argv) as Hrun. rewrite H in Hrun. exact Hrun. Qed.

Lemma run_malformed (int : string -> option Z) (argv : list string) (arg : string) :
  nth_error argv 1 = Some arg -> int arg = None ->
  run int argv = ([], Raise ValueError).
Proof.
  intros H1 H2. pose proof (run_cases int argv) as Hrun.
  rewrite H1, H2 in Hrun. exact Hrun.
Qed.

Lemma run_integer (int : string -> option Z) (argv : list string)
    (arg : string) (n : Z) :
  nth_error argv 1 = Some arg -> int arg = Some n ->
  run int argv = main n minDepth_default [].
Proof.
  intros H1 H2. pose proof (run_cases int argv) as Hrun.
  rewrite H1, H2 in Hrun. exact Hrun.
Qed.

Lemma exit_status_nonzero {A : Type} (r : result A) :
  exit_status r <> 0 <-> exists e, r = Raise e.
Proof.
  destruct r as [a | e]; cbn [exit_status]; split.
  - intros H. contradiction H. reflexivity.
  - intros [e He]. discriminate.
  - intros _. exists e. reflexivity.
  - intros _. discriminate.
Qed.

Lemma run_raises_iff (int : string -> option Z) (argv : list string) :
  (exists e, snd (run int argv) = Raise e)
  <-> (nth_error argv 1 = None
       \/ exists arg, nth_error argv 1 = Some arg /\ int arg = None).
Proof.
  split.
  - intros [e He].
    destruct (nth_error argv 1) as [arg |] eqn:Harg; [| left; reflexivity].
    right. exists arg. split; [reflexivity |].
    destruct (int arg) as [n |] eqn:Hint; [| reflexivity].
    rewrite (run_integer int argv arg n Harg Hint) in He.
    destruct (main_default_returns n) as [out Hout].
    rewrite Hout in He. discriminate.
  - intros [Habs | [arg [Harg Hint]]].
    + exists IndexError. rewrite run_absent by assumption. reflexivity.
    + exists ValueError. rewrite (run_malformed int argv arg) by assumption.
      reflexivity.
Qed.

(** C10. The script ends with an uncaught exception, and so with a status
    other than 0, exactly when [sys.argv[1]] is absent or [int] rejects it;
    with an argument that [int] accepts no exception is raised and the
    status is 0. *)
Theorem script_failure (int : string -> option Z) (argv : list string) :
  ((exists e, snd (run int argv) = Raise e)
   <-> absent argv \/ malformed int argv)
  /\ (exit_status (snd (run int argv)) <> 0
      <-> absent argv \/ malformed int argv)
  /\ (absent argv -> run int argv = ([], Raise IndexError))
  /\ (malformed int argv -> run int argv = ([], Raise ValueError))
  /\ (forall arg n,
         nth_error argv 1 = Some arg -> int arg = Some n ->
         snd (run int argv) = Ok tt /\ exit_status (snd (run int argv)) = 0).
Proof.
  unfold absent, malformed.
  split; [apply run_raises_iff |].
  split; [rewrite exit_status_nonzero; apply run_raises_iff |].
  split; [apply run_absent |].
  split.
  - intros [arg [Harg Hint]]. apply (run_malformed int argv arg); assumption.
  - intros arg n Harg Hint.
    rewrite (run_integer int argv arg n Harg Hint).
    destruct (main_default_returns n) as [out Hout].
    rewrite Hout. split; reflexivity.
Qed.

Lemma script_failure_witness :
  run int_decimal ["binary-tree.py"%string] = ([], Raise IndexError)
  /\ run int_decimal ["binary-tree.py"%string; "ten"%string]
     = ([], Raise ValueError)
  /\ exit_status (snd (run int_decimal ["binary-tree.py"%string; "6"%string])) = 0.
Proof.
  split; [| split].
  - apply (script_failure int_decimal ["binary-tree.py"%string]). reflexivity.
  - apply (script_failure int_decimal ["binary-tree.py"%string; "ten"%string]).
    exists "ten"%string. split; reflexivity.
  - pose proof (script_failure int_decimal
                  ["binary-tree.py"%string; "6"%string]) as H.
    apply (proj2 (proj2 (proj2 (proj2 H))) "6"%string 6); reflexivity.
Defined.

(** C2, as the code has it.  Invoked with 4, the script writes four
    lines: a stretch line for depth 7, loop lines for depths 4 and 6, and
    the long-lived line for depth 6; the numbers on them are the same in
    every run on that argument. *)
Theorem run_4_lines :
  exists cs k4 c4 k6 c6 cl : Z,
    forall (int : string -> option Z) (argv : list string) (arg : string),
      nth_error argv 1 = Some arg ->
      int arg = Some 4 ->
      run int argv
      = ([stretch_line 7 cs; trees_line k4 4 c4; trees_line k6 6 c6;
          long_lived_line 6 cl], Ok tt).
Proof.
  exists (-1), 128, (-2 * (2 ^ 6 - 1)), 32, (-2 * (2 ^ 4 - 1)), (-1).
  intros int argv arg Harg Hint.
  rewrite (run_integer int argv arg 4 Harg Hint).
  rewrite main_run by (unfold minDepth_default; lia).
  reflexivity.
Qed.

Lemma run_4_lines_witness :
  exists cs k4 c4 k6 c6 cl : Z,
    run int_decimal ["binary-tree.py"%string; "4"%string]
    = ([stretch_line 7 cs; trees_line k4 4 c4; trees_line k6 6 c6;
        long_lived_line 6 cl], Ok tt).
Proof.
  destruct run_4_lines as [cs [k4 [c4 [k6 [c6 [cl H]]]]]].
  exists cs, k4, c4, k6, c6, cl.
  apply (H int_decimal ["binary-tree.py"%string; "4"%string] "4"%string);
    reflexivity.
Defined.

(** C2, as the spec has it, fails: invoked with 4 the script writes no
    stretch line for depth 6; its first line is the one for depth 7. *)
Lemma run_4_no_stretch_6 :
  ~ (exists cs k4 c4 k6 c6 cl : Z,
        run int_decimal ["binary-tree.py"%string; "4"%string]
        = ([stretch_line 6 cs; trees_line k4 4 c4; trees_line k6 6 c6;
            long_lived_line 6 cl], Ok tt)).
Proof.
  intros [cs [k4 [c4 [k6 [c6 [cl H]]]]]].
  assert (Hrun : run int_decimal ["binary-tree.py"%string; "4"%string]
                 = main 4 minDepth_default [])
    by (apply (run_integer _ _ "4"%string); reflexivity).
  rewrite Hrun, main_run in H by (unfold minDepth_default; lia).
  cbn [app] in H. injection H as H _.
  unfold stretch_line in H. vm_compute in H. discriminate H.
Qed.

(** ** Further properties of the tree builder *)

(** X1. Whatever the item and the depth, the tree built is perfect, of
    height [depth] (0 when [depth] is negative). *)
Theorem bottomUpTree_perfect (item depth : Z) :
  perfect (Z.to_nat depth) (bottomUpTree item depth).
Proof.
  pattern item, depth. apply bottomUpTree_depth_ind; clear item depth.
  - intros item depth Hd.
    rewrite bottomUpTree_leaf by assumption.
    replace (Z.to_nat depth) with O by lia. constructor.
  - intros item depth Hd IHl IHr.
    rewrite (bottomUpTree_node item depth Hd).
    replace (Z.to_nat depth) with (S (Z.to_nat (depth - 1))) by lia.
    constructor; assumption.
Qed.

(** X2. The tree built has [2^depth] leaves, and a single one when
    [depth] is negative. *)
Theorem leaves_bottomUpTree (item depth : Z) :
  leaves (bottomUpTree item depth) = 2 ^ Z.max depth 0.
Proof.
  pattern item, depth. apply bottomUpTree_depth_ind; clear item depth.
  - intros item depth Hd.
    rewrite bottomUpTree_leaf by assumption.
    replace (Z.max depth 0) with 0 by lia. reflexivity.
  - intros item depth Hd IHl IHr.
    rewrite (bottomUpTree_node item depth Hd).
    cbn [leaves]. rewrite IHl, IHr.
    replace (Z.max depth 0) with (Z.max (depth - 1) 0 + 1) by lia.
    rewrite Z.pow_add_r by lia. lia.
Qed.

(** X3. In a built tree the items are numbered like a heap: at every node
    with children, the left child holds twice the node's item minus 1 and
    the right child twice the node's item. *)
Theorem bottomUpTree_numbering (item depth : Z) (t l r : Node) :
  is_node_of t (bottomUpTree item depth) ->
  Node_left t = Some l ->
  Node_right t = Some r ->
  Node_item l = 2 * Node_item t - 1 /\ Node_item r = 2 * Node_item t.
Proof.
  intros Ht Hl Hr.
  destruct (node_of_bottomUpTree t item depth Ht) as [i [d ->]].
  assert (Hroot : forall a b, Node_item (bottomUpTree a b) = a).
  { intros a b. destruct (Z_le_gt_dec b 0).
    - rewrite bottomUpTree_leaf by assumption. reflexivity.
    - rewrite bottomUpTree_node by lia. reflexivity. }
  destruct (Z_le_gt_dec d 0) as [Hle | Hgt].
  - rewrite bottomUpTree_leaf in Hl by assumption. discriminate.
  - rewrite bottomUpTree_node in Hl, Hr by lia.
    cbn [Node_left Node_right] in Hl, Hr.
    injection Hl as <-. injection Hr as <-.
    rewrite !Hroot. split; reflexivity.
Qed.

Lemma bottomUpTree_numbering_witness :
  Node_item (bottomUpTree 5 1) = 2 * Node_item (bottomUpTree 3 2) - 1
  /\ Node_item (bottomUpTree 6 1) = 2 * Node_item (bottomUpTree 3 2).
Proof.
  apply (bottomUpTree_numbering 3 2 (bottomUpTree 3 2)
           (bottomUpTree 5 1) (bottomUpTree 6 1)).
  - apply node_self.
  - reflexivity.
  - reflexivity.
Defined.

(** ** Further properties of the checksum *)

Lemma itemCheck_raise_left (i : Z) (l : Node) (r : option Node) (e : exn) :
  itemCheck l = Raise e -> itemCheck (mkNode i (Some l) r) = Raise e.
Proof. intros Hl. cbn [itemCheck]. rewrite Hl. reflexivity. Qed.

Lemma itemCheck_only_AttributeError (t : Node) (e : exn) :
  itemCheck t = Raise e -> e = AttributeError.
Proof.
  revert e. induction t as [i l r IHl IHr] using Node_links_ind. intros e.
  destruct l as [l |]; [| discriminate].
  cbn [itemCheck option_all] in *.
  destruct (itemCheck l) as [a | el] eqn:El; cbn [rbind].
  - destruct r as [r |]; cbn [option_all] in IHr.
    + destruct (itemCheck r) as [b | er] eqn:Er; cbn [rbind].
      * discriminate.
      * intros H. injection H as <-. apply IHr. reflexivity.
    + intros H. injection H as <-. reflexivity.
  - intros H. injection H as <-. apply IHl. reflexivity.
Qed.

Lemma itemCheck_raises_reached (t : Node) (e : exn) :
  itemCheck t = Raise e ->
  exists t' l, reached t' t /\ Node_left t' = Some l /\ Node_right t' = None.
Proof.
  revert e. induction t as [i l r IHl IHr] using Node_links_ind. intros e.
  destruct l as [l |]; [| discriminate].
  cbn [itemCheck option_all] in *.
  destruct (itemCheck l) as [a | el] eqn:El; cbn [rbind].
  - destruct r as [r |]; cbn [option_all] in IHr.
    + destruct (itemCheck r) as [b | er] eqn:Er; cbn [rbind]; [discriminate |].
      intros _. destruct (IHr er eq_refl) as [t' [l' [Ht' Hbad]]].
      exists t', l'. split; [apply reached_right; assumption | assumption].
    + intros _. exists (mkNode i (Some l) None), l.
      split; [apply reached_self | split; reflexivity].
  - intros _. destruct (IHl el eq_refl) as [t' [l' [Ht' Hbad]]].
    exists t', l'. split; [apply reached_left; assumption | assumption].
Qed.

Lemma reached_raises (t' t l : Node) :
  reached t' t -> Node_left t' = Some l -> Node_right t' = None ->
  exists e, itemCheck t = Raise e.
Proof.
  intros Hreach Hl Hr.
  induction Hreach as [| i l0 r Hreach IH | i l0 r Hreach IH].
  - destruct t' as [i l' r']. cbn [Node_left Node_right] in Hl, Hr. subst.
    cbn [itemCheck]. destruct (itemCheck l) as [a | e]; cbn [rbind]; eauto.
  - destruct IH as [e He]. exists e. apply itemCheck_raise_left. assumption.
  - destruct IH as [e He]. cbn [itemCheck].
    destruct (itemCheck l0) as [a | e0]; cbn [rbind]; [| eauto].
    rewrite He. cbn [rbind]. eauto.
Qed.

(** X4. On any tree, built by [bottomUpTree] or not, [itemCheck] fails
    exactly when it comes to a node that has a left link and no right one;
    the exception is then [AttributeError].  A right link at a node without
    a left one is never followed. *)
Theorem itemCheck_raises_iff (t : Node) :
  (itemCheck t = Raise AttributeError
   <-> exists t' l,
         reached t' t /\ Node_left t' = Some l /\ Node_right t' = None)
  /\ (forall e, itemCheck t = Raise e -> e = AttributeError)
  /\ (forall i r, itemCheck (mkNode i None (Some r)) = Ok i).
Proof.
  split; [| split].
  - split.
    + apply itemCheck_raises_reached.
    + intros [t' [l [Hreach [Hl Hr]]]].
      destruct (reached_raises t' t l Hreach Hl Hr) as [e He].
      rewrite He. f_equal. apply (itemCheck_only_AttributeError t). assumption.
  - apply itemCheck_only_AttributeError.
  - reflexivity.
Qed.

Lemma itemCheck_raises_iff_witness :
  itemCheck (mkNode 1 (Some (mkNode 2 None None))
               (Some (mkNode 3 (Some (mkNode 4 None None)) None)))
  = Raise AttributeError.
Proof.
  apply (itemCheck_raises_iff
           (mkNode 1 (Some (mkNode 2 None None))
              (Some (mkNode 3 (Some (mkNode 4 None None)) None)))).
  exists (mkNode 3 (Some (mkNode 4 None None)) None), (mkNode 4 None None).
  split; [| split; reflexivity].
  apply reached_right. apply reached_self.
Defined.

(** ** The driver for any [minDepth] *)

Lemma for_body_any (depth i check : Z) (out : stdout) :
  for_body depth i check out
  = (out, Ok (check + (if depth <=? 0 then 0 else -2))).
Proof.
  unfold for_body, bind, lift, ret.
  rewrite !itemCheck_bottomUpTree.
  destruct (depth <=? 0); do 2 f_equal; lia.
Qed.

Lemma for_in_for_body_any (depth : Z) (l : list Z) (check : Z) (out : stdout) :
  for_in l (for_body depth) check out
  = (out, Ok (check + (if depth <=? 0 then 0 else -2) * Z.of_nat (List.length l))).
Proof.
  revert check. induction l as [| i l IH]; intros check.
  - cbn [for_in List.length]. unfold ret. do 2 f_equal. lia.
  - cbn [for_in]. unfold bind at 1. rewrite for_body_any, IH.
    do 2 f_equal. cbn [List.length]. lia.
Qed.

Lemma while_body_ok (maxDepth minDepth depth : Z) (out : stdout) :
  0 <= maxDepth - depth + minDepth ->
  while_body maxDepth minDepth depth out
  = (out ++ [pass_line maxDepth minDepth depth], Ok tt).
Proof.
  intros Hk. unfold while_body, pass_line, pass_check.
  unfold bind at 1. unfold lift at 1.
  rewrite lshift_1 by assumption.
  unfold bind at 1.
  rewrite for_in_for_body_any, length_range.
  assert (Hpos : 0 < 2 ^ (maxDepth - depth + minDepth))
    by (apply Z.pow_pos_nonneg; lia).
  unfold print. do 4 f_equal.
  destruct (depth <=? 0); lia.
Qed.

Lemma while_body_raise (maxDepth minDepth depth : Z) (out : stdout) :
  maxDepth - depth + minDepth < 0 ->
  while_body maxDepth minDepth depth out = (out, Raise ValueError).
Proof.
  intros Hk. unfold while_body, bind, lift, lshift.
  destruct (Z.ltb_spec (maxDepth - depth + minDepth) 0); [reflexivity | lia].
Qed.

Lemma loop_raises_exit (maxDepth minDepth depth : Z) :
  depth > maxDepth -> loop_raises maxDepth minDepth depth = false.
Proof.
  intros Hd. unfold loop_raises.
  destruct (Z.leb_spec depth maxDepth); [lia | reflexivity].
Qed.

Lemma loop_raises_now (maxDepth minDepth depth : Z) :
  depth <= maxDepth ->
  maxDepth - depth + minDepth < 0 ->
  loop_raises maxDepth minDepth depth = true.
Proof.
  intros Hd Hk. unfold loop_raises.
  destruct (Z.leb_spec depth maxDepth); [| lia].
  destruct (Z.ltb_spec (maxDepth + minDepth)
              (depth + 2 * ((maxDepth - depth) / 2))) as [Hlt | Hge];
    [reflexivity |].
  assert (0 <= (maxDepth - depth) / 2) by (apply Z.div_pos; lia).
  lia.
Qed.

Lemma loop_raises_step (maxDepth minDepth depth : Z) :
  depth <= maxDepth ->
  0 <= maxDepth - depth + minDepth ->
  loop_raises maxDepth minDepth depth
  = loop_raises maxDepth minDepth (depth + 2).
Proof.
  intros Hd Hk. unfold loop_raises.
  replace (maxDepth - depth) with ((maxDepth - (depth + 2)) + 1 * 2) by lia.
  rewrite Z.div_add by lia.
  pose proof (Z.div_mod (maxDepth - (depth + 2)) 2 ltac:(lia)) as Hdm.
  pose proof (Z.mod_pos_bound (maxDepth - (depth + 2)) 2 ltac:(lia)) as Hmod.
  destruct (Z.leb_spec depth maxDepth); [| lia].
  destruct (Z.leb_spec (depth + 2) maxDepth);
    cbn [andb];
    repeat match goal with
           | |- context [?a <? ?b] => destruct (Z.ltb_spec a b)
           end;
    try reflexivity; lia.
Qed.

(** The loop for any [minDepth]: it writes the lines of its passes up to
    the first negative shift count, where it stops with [ValueError]. *)
Lemma while_loop_any (maxDepth minDepth : Z) :
  forall (k : nat) (depth : Z) (out : stdout),
    passes maxDepth depth = k ->
    while_loop maxDepth minDepth depth out
    = (out ++ loop_output k maxDepth minDepth depth,
       if loop_raises maxDepth minDepth depth
       then Raise ValueError else Ok tt).
Proof.
  induction k as [| k IH]; intros depth out Hk.
  - destruct (Z_le_gt_dec depth maxDepth) as [Hle | Hgt].
    + rewrite passes_step in Hk by assumption. discriminate.
    + rewrite while_loop_exit, loop_raises_exit by assumption.
      cbn [loop_output]. rewrite app_nil_r. reflexivity.
  - destruct (Z_le_gt_dec depth maxDepth) as [Hle | Hgt].
    + rewrite passes_step in Hk by assumption. injection Hk as Hk.
      rewrite while_loop_pass by assumption. unfold bind.
      cbn [loop_output].
      destruct (Z.ltb_spec (maxDepth - depth + minDepth) 0) as [Hneg | Hpos].
      * rewrite while_body_raise, loop_raises_now by assumption.
        rewrite app_nil_r. reflexivity.
      * rewrite while_body_ok by assumption.
        rewrite (IH (depth + 2)) by assumption.
        rewrite <- loop_raises_step by assumption.
        rewrite <- app_assoc. reflexivity.
    + rewrite passes_done in Hk by assumption. discriminate.
Qed.

(** [main] for any [minDepth], in closed form. *)
Lemma main_any (n minDepth : Z) (out : stdout) :
  let maxDepth := Z.max n (minDepth + 2) in
  let raises := loop_raises maxDepth minDepth minDepth in
  main n minDepth out
  = (out ++ stretch_line (maxDepth + 1) (root_check (maxDepth + 1))
         :: loop_output (passes maxDepth minDepth) maxDepth minDepth minDepth
         ++ (if raises then []
             else [long_lived_line maxDepth (root_check maxDepth)]),
     if raises then Raise ValueError else Ok tt).
Proof.
  intros maxDepth raises. unfold main.
  replace (if minDepth + 2 >? n then minDepth + 2 else n) with maxDepth.
  2:{ unfold maxDepth. rewrite Z.gtb_ltb.
      destruct (Z.ltb_spec n (minDepth + 2)); lia. }
  unfold bind at 1. unfold lift at 1.
  rewrite itemCheck_bottomUpTree.
  unfold bind at 1. unfold print at 1.
  unfold bind at 1.
  rewrite (while_loop_any maxDepth minDepth (passes maxDepth minDepth))
    by reflexivity.
  fold raises. unfold root_check.
  destruct raises.
  - rewrite app_nil_r, <- app_assoc. reflexivity.
  - unfold bind, lift, print. rewrite itemCheck_bottomUpTree.
    rewrite <- !app_assoc. reflexivity.
Qed.

(** X5. [main] in closed form for every [n] and every [minDepth].  It
    writes the stretch line, then the lines of the loop's passes; if a pass
    meets a negative shift count it stops there with [ValueError] and the
    long-lived line is not written; otherwise it writes the long-lived line
    and returns. *)
Theorem main_closed_form (n minDepth : Z) (out : stdout) :
  let maxDepth := Z.max n (minDepth + 2) in
  let raises := loop_raises maxDepth minDepth minDepth in
  main n minDepth out
  = (out ++ stretch_line (maxDepth + 1) (root_check (maxDepth + 1))
         :: loop_output (passes maxDepth minDepth) maxDepth minDepth minDepth
         ++ (if raises then []
             else [long_lived_line maxDepth (root_check maxDepth)]),
     if raises then Raise ValueError else Ok tt).
Proof. apply main_any. Qed.

Lemma loop_raises_main (n minDepth : Z) :
  loop_raises (Z.max n (minDepth + 2)) minDepth minDepth
  = (minDepth <=? -2)
    || ((minDepth =? -1) && Z.odd (Z.max n (minDepth + 2))).
Proof.
  set (M := Z.max n (minDepth + 2)).
  assert (HM : minDepth + 2 <= M) by (unfold M; lia).
  unfold loop_raises. rewrite Zodd_mod.
  pose proof (Z.div_mod (M - minDepth) 2 ltac:(lia)) as Hdm.
  pose proof (Z.mod_pos_bound (M - minDepth) 2 ltac:(lia)) as Hmod.
  pose proof (Z.div_mod M 2 ltac:(lia)) as HdM.
  pose proof (Z.mod_pos_bound M 2 ltac:(lia)) as HmodM.
  destruct (Z.leb_spec minDepth M); [| lia].
  destruct (Z.leb_spec minDepth (-2)); cbn [andb orb].
  - destruct (Z.ltb_spec (M + minDepth) (minDepth + 2 * ((M - minDepth) / 2)));
      [reflexivity | lia].
  - destruct (Z.eqb_spec minDepth (-1)) as [-> | Hne]; cbn [andb].
    + replace (M - -1) with (M + 1) in * by lia.
      destruct (Z.eqb_spec (M mod 2) 1);
        destruct (Z.ltb_spec (M + -1) (-1 + 2 * ((M + 1) / 2)));
        try reflexivity; lia.
    + destruct (Z.ltb_spec (M + minDepth) (minDepth + 2 * ((M - minDepth) / 2)));
        [lia | reflexivity].
Qed.

(** X6. What [main] ends with, for every [n] and [minDepth]: it raises
    [ValueError] when [minDepth <= -2], and when [minDepth = -1] and
    [max(n, 1)] is odd; in every other case, so for every [minDepth >= 0],
    it returns. *)
Theorem main_raises (n minDepth : Z) (out : stdout) :
  snd (main n minDepth out)
  = if (minDepth <=? -2)
       || ((minDepth =? -1) && Z.odd (Z.max n (minDepth + 2)))
    then Raise ValueError else Ok tt.
Proof.
  pose proof (main_any n minDepth out) as H. cbv zeta in H.
  rewrite H. cbn [snd]. rewrite loop_raises_main. reflexivity.
Qed.

(** ** The passes of the loop *)

Lemma length_loop_lines_from (k : nat) (maxDepth minDepth depth : Z) :
  List.length (loop_lines_from k maxDepth minDepth depth) = k.
Proof.
  revert depth. induction k as [| k IH]; intros depth; [reflexivity |].
  cbn [loop_lines_from List.length]. rewrite IH. reflexivity.
Qed.

Lemma loop_lines_from_map (k : nat) (maxDepth minDepth depth : Z) :
  loop_lines_from k maxDepth minDepth depth
  = map (loop_line maxDepth minDepth)
      (map (fun j => depth + 2 * Z.of_nat j) (seq 0 k)).
Proof.
  revert depth. induction k as [| k IH]; intros depth; [reflexivity |].
  cbn [loop_lines_from seq map].
  f_equal; [f_equal; lia |].
  rewrite IH, <- seq_shift, (map_map S).
  f_equal. apply map_ext. intros j. lia.
Qed.

Lemma nth_error_seq_0 (k j a : nat) :
  nth_error (seq 0 k) j = Some a -> a = j.
Proof.
  intros H.
  assert (Hj : (j < k)%nat).
  { rewrite <- (length_seq k 0). apply nth_error_Some. congruence. }
  apply nth_error_nth with (d := O) in H.
  rewrite seq_nth in H by assumption. lia.
Qed.

Lemma in_loop_depths (maxDepth minDepth d : Z) :
  In d (loop_depths maxDepth minDepth)
  <-> minDepth <= d <= maxDepth /\ Z.even (d - minDepth) = true.
Proof.
  unfold loop_depths, passes. rewrite in_map_iff.
  pose proof (Z.div_mod (maxDepth - minDepth + 2) 2 ltac:(lia)) as Hdm.
  pose proof (Z.mod_pos_bound (maxDepth - minDepth + 2) 2 ltac:(lia)) as Hmod.
  split.
  - intros [j [<- Hj]]. apply in_seq in Hj.
    split; [lia |].
    replace (minDepth + 2 * Z.of_nat j - minDepth) with (2 * Z.of_nat j) by lia.
    rewrite Z.even_mul. reflexivity.
  - intros [Hd Hev]. apply Z.even_spec in Hev. destruct Hev as [q Hq].
    exists (Z.to_nat q). split; [lia |].
    apply in_seq. lia.
Qed.

(** X7. For every [n] the default driver writes [max(n, 6) / 2 + 1] lines
    (the quotient rounded down): the stretch line, one line for each pass
    of the loop, and the long-lived line. *)
Theorem main_line_count (n : Z) :
  Z.of_nat (List.length (fst (main n minDepth_default [])))
  = Z.max n 6 / 2 + 1.
Proof.
  rewrite main_run by (unfold minDepth_default; lia).
  unfold minDepth_default, loop_lines, passes.
  cbn [fst app List.length]. rewrite length_app, length_loop_lines_from.
  cbn [List.length].
  replace (Z.max n (4 + 2)) with (Z.max n 6) by lia.
  pose proof (Z.div_mod (Z.max n 6) 2 ltac:(lia)) as Hdm.
  pose proof (Z.mod_pos_bound (Z.max n 6) 2 ltac:(lia)) as Hmod.
  pose proof (Z.div_mod (Z.max n 6 - 4 + 2) 2 ltac:(lia)) as Hdm'.
  pose proof (Z.mod_pos_bound (Z.max n 6 - 4 + 2) 2 ltac:(lia)) as Hmod'.
  lia.
Qed.

(** X8. With a [minDepth] of 1 or more, the loop makes a pass for exactly
    the depths [d] between [minDepth] and [maxDepth] for which
    [d - minDepth] is even, in increasing order, and writes one line for
    each between the stretch line and the long-lived line.  So when
    [maxDepth - minDepth] is odd, no pass is made at [maxDepth]. *)
Theorem main_loop_depths (n minDepth : Z) :
  1 <= minDepth ->
  let maxDepth := Z.max n (minDepth + 2) in
  main n minDepth []
  = (stretch_line (maxDepth + 1) (-1)
       :: map (loop_line maxDepth minDepth) (loop_depths maxDepth minDepth)
       ++ [long_lived_line maxDepth (-1)],
     Ok tt)
  /\ (forall d,
         In d (loop_depths maxDepth minDepth)
         <-> minDepth <= d <= maxDepth /\ Z.even (d - minDepth) = true)
  /\ (forall j k d d',
         (j < k)%nat ->
         nth_error (loop_depths maxDepth minDepth) j = Some d ->
         nth_error (loop_depths maxDepth minDepth) k = Some d' ->
         d < d').
Proof.
  intros Hm maxDepth. split; [| split].
  - rewrite main_run by assumption. fold maxDepth.
    unfold loop_lines, loop_depths. rewrite loop_lines_from_map. reflexivity.
  - intros d. apply in_loop_depths.
  - intros j k d d' Hjk Hj Hk. unfold loop_depths in Hj, Hk.
    rewrite nth_error_map in Hj, Hk.
    destruct (nth_error (seq 0 (passes maxDepth minDepth)) j) as [a |] eqn:Ha;
      [| discriminate].
    destruct (nth_error (seq 0 (passes maxDepth minDepth)) k) as [b |] eqn:Hb;
      [| discriminate].
    cbn [option_map] in Hj, Hk.
    assert (Hd : minDepth + 2 * Z.of_nat a = d) by congruence.
    assert (Hd' : minDepth + 2 * Z.of_nat b = d') by congruence.
    apply nth_error_seq_0 in Ha. apply nth_error_seq_0 in Hb. lia.
Qed.

Lemma main_loop_depths_witness :
  loop_depths 7 4 = [4; 6]
  /\ (In 7 (loop_depths (Z.max 7 (4 + 2)) 4)
      <-> 4 <= 7 <= Z.max 7 (4 + 2) /\ Z.even (7 - 4) = true).
Proof.
  split; [reflexivity |].
  pose proof (main_loop_depths 7 4 ltac:(lia)) as H. cbv zeta in H.
  destruct H as (_ & H & _). exact (H 7).
Defined.


(** X10. An [n] of [minDepth + 2] or less is not looked at any further:
    [main] does and writes what it does for [n = minDepth + 2] (with the
    default [minDepth], every [n <= 6] runs as 6 does). *)
Theorem main_small_n (n minDepth : Z) (out : stdout) :
  n <= minDepth + 2 ->
  main n minDepth out = main (minDepth + 2) minDepth out.
Proof.
  intros Hn.
  pose proof (main_any n minDepth out) as H1.
  pose proof (main_any (minDepth + 2) minDepth out) as H2.
  cbv zeta in H1, H2. rewrite H1, H2.
  replace (Z.max n (minDepth + 2)) with (minDepth + 2) by lia.
  replace (Z.max (minDepth + 2) (minDepth + 2)) with (minDepth + 2) by lia.
  reflexivity.
Qed.

Lemma main_small_n_witness :
  - 3 <= 4 + 2 /\ main (- 3) 4 [] = main (4 + 2) 4 [].
Proof. split; [lia | apply (main_small_n (- 3) 4 []); lia]. Defined.

(** ** Runs on concrete inputs *)

Example bottomUpTree_1_1 :
  bottomUpTree 1 1
  = mkNode 1 (Some (mkNode 1 None None)) (Some (mkNode 2 None None)).
Proof. reflexivity. Qed.

Example itemCheck_5_3 : itemCheck (bottomUpTree 5 3) = Ok 4.
Proof. vm_compute. reflexivity. Qed.

(** Three nodes at depth 1: [2^(1+1) - 1], not [2^(1+1-1)]. *)
Example size_0_1 : size (bottomUpTree 0 1) = 3.
Proof. reflexivity. Qed.

(** A node that [bottomUpTree] never builds: the check raises on it. *)
Example itemCheck_no_right :
  itemCheck (mkNode 1 (Some (mkNode 2 None None)) None) = Raise AttributeError.
Proof. reflexivity. Qed.

Example main_10 :
  main 10 minDepth_default []
  = ([stretch_line 11 (-1); trees_line 2048 4 (-2046);
      trees_line 512 6 (-510); trees_line 128 8 (-126);
      trees_line 32 10 (-30); long_lived_line 10 (-1)], Ok tt).
Proof. vm_compute. reflexivity. Qed.

(** With a negative [minDepth] the shift count goes negative on the last
    pass and [main] stops there. *)
Example main_negative_minDepth :
  main 4 (-2) []
  = ([stretch_line 5 (-1); trees_line 32 (-2) 0; trees_line 8 0 0;
      trees_line 2 2 0], Raise ValueError).
Proof. vm_compute. reflexivity. Qed.

Example run_no_argument :
  run int_decimal ["binary-tree.py"%string] = ([], Raise IndexError).
Proof. reflexivity. Qed.

Example main_minus_one :
  snd (main 5 (-1) []) = Raise ValueError /\ snd (main 4 (-1) []) = Ok tt.
Proof. split; vm_compute; reflexivity. Qed.
